(** * torchtnt step-metric callbacks: TimeWaitForBatchLogger and ThroughputLogger

    A shallow embedding of
    [torchtnt/framework/callbacks/time_wait_for_batch_logger.py] and of the
    behaviour that [tests/framework/callbacks/test_throughput_logger.py]
    exercises, with the properties of the callbacks proved over it.

    Python objects that the callbacks share with the training loop (the
    execution state with its timers, the metric sink, the process rank) live in
    one [World]; a callback is a computation in a state-and-exception monad over
    that world, so that "the sink was written once" and "the timers were not
    touched" are statements about the world before and after a call. *)

From Stdlib Require Import ZArith QArith Lia.
From stdpp Require Import gmap strings list pretty.

Local Open Scope string_scope.
Local Open Scope Z_scope.

(** ** Python: exceptions, effects, the few builtins the callbacks use *)

Module Py.

Inductive exn : Type :=
| ValueError (msg : string)
| AssertionError (msg : string)
| IndexError
| ZeroDivisionError.

Inductive outcome (A : Type) : Type :=
| Returns (a : A)
| Raises (e : exn).
Arguments Returns {A} a.
Arguments Raises {A} e.

(** A statement run in world [w] ends in a value or an exception, and in a
    world: what was written before an exception stays written. *)
Definition M (W A : Type) : Type := W → outcome A * W.

Definition ret {W A} (a : A) : M W A := λ w, (Returns a, w).

Definition bind {W A B} (m : M W A) (k : A → M W B) : M W B :=
  λ w, match m w with
       | (Returns a, w') => k a w'
       | (Raises e, w') => (Raises e, w')
       end.

Definition raise {W A} (e : exn) : M W A := λ w, (Raises e, w).

Definition get {W} : M W W := λ w, (Returns w, w).

Definition modify {W} (f : W → W) : M W unit := λ w, (Returns tt, f w).

(** [a % b] on ints: the result takes the sign of the divisor, as [Z.modulo]
    does; a zero divisor raises. *)
Definition mod_ {W} (a b : Z) : M W Z :=
  if decide (b = 0) then raise ZeroDivisionError else ret (a `mod` b).

(** [l[i]] with Python's negative indices. *)
Definition getitem {W A} (l : list A) (i : Z) : M W A :=
  let j := if decide (i < 0) then i + Z.of_nat (length l) else i in
  if decide (0 ≤ j) then
    match l !! Z.to_nat j with
    | Some x => ret x
    | None => raise IndexError
    end
  else raise IndexError.

(** [pyre_extensions.none_throws]. *)
Definition none_throws {W A} (optional : option A) : M W A :=
  match optional with
  | Some a => ret a
  | None => raise (AssertionError "Unexpected `None`")
  end.

(** [f"{n}"] for an int. *)
Definition str (n : Z) : string := pretty n.

End Py.

Import Py.

Declare Scope py_scope.
Delimit Scope py_scope with py.
Notation "x <- m ;; k" := (bind m (λ x, k))
  (at level 100, m at next level, right associativity) : py_scope.
Notation "m ;;; k" := (bind m (λ _, k))
  (at level 100, right associativity) : py_scope.
Local Open Scope py_scope.

(** ** The framework objects the callbacks read *)

Section Framework.

(** The type of a duration sample and of a logged scalar (a Python float, or
    an int in the tests).  The wait-time logger only hands samples on. *)
Context {num : Type}.

(** [TimerProtocol]: category name to the samples recorded so far. *)
Record Timer : Type := { recorded_durations : gmap string (list num) }.

Record PhaseState : Type := { iteration_timer : Timer }.

Record State : Type := {
  train_state : option PhaseState;
  eval_state : option PhaseState;
  predict_state : option PhaseState
}.

Record Progress : Type := { num_steps_completed : Z }.
Record TTrainUnit : Type := { train_progress : Progress }.
Record TEvalUnit : Type := { eval_progress : Progress }.
Record TPredictUnit : Type := { predict_progress : Progress }.

(** The two shapes of sink: [isinstance(logger, SummaryWriter)] or not. *)
Inductive Sink : Type := SummaryWriter | MetricLogger.

(** One call received by the sink. *)
Inductive SinkCall : Type :=
| add_scalar (tag : string) (scalar_value : num) (global_step : Z)
| log (name : string) (data : num) (step : Z).

(** What a callback can see and touch: the rank of the process it runs in,
    the execution state the loop passes to every hook, and the calls its sink
    has received. *)
Record World : Type := {
  global_rank : nat;
  state : State;
  sink_calls : list SinkCall
}.

Definition call (c : SinkCall) : M World unit :=
  modify (λ w, {| global_rank := global_rank w;
                  state := state w;
                  sink_calls := sink_calls w ++ [c] |}).

(** Modelled from the spec: the decorator [rank_zero_fn] of
    [torchtnt.utils.distributed], which is not among the sources.  The
    decorated function executes only on the coordinating process, rank zero,
    and is a no-op returning [None] on any other. *)
Definition rank_zero_fn {A} (fn : M World A) : M World (option A) :=
  w <- get ;;
  if decide (global_rank w = 0%nat)
  then (a <- fn ;; ret (Some a))
  else ret None.

End Framework.

Arguments Timer : clear implicits.
Arguments PhaseState : clear implicits.
Arguments State : clear implicits.
Arguments SinkCall : clear implicits.
Arguments World : clear implicits.

(** ** time_wait_for_batch_logger.py *)

Module TimeWaitForBatchLogger.
Section TimeWaitForBatchLogger.

Context {num : Type}.

Record TimeWaitForBatchLogger : Type := {
  _logger : Sink;
  _log_every_n_steps : Z
}.

Definition __init__ (logger : Sink) (log_every_n_steps : Z)
  : M (World num) TimeWaitForBatchLogger :=
  if decide (log_every_n_steps < 1) then
    raise (ValueError ("log_every_n_steps must be at least 1, got "
                       +:+ str log_every_n_steps))
  else
    ret {| _logger := logger; _log_every_n_steps := log_every_n_steps |}.

Definition _log_step_metrics (self : TimeWaitForBatchLogger)
    (timer : Timer num) (label : string) (step : Z)
  : M (World num) (option unit) :=
  rank_zero_fn (
    r <- mod_ step (_log_every_n_steps self) ;;
    if decide (r ≠ 0) then ret tt
    else
      match recorded_durations timer !! "data_wait_time" with
      | None | Some [] => ret tt
      | Some data_wait_time_list =>
          match _logger self with
          | SummaryWriter =>
              v <- getitem data_wait_time_list (-1) ;;
              call (add_scalar label v step)
          | MetricLogger =>
              v <- getitem data_wait_time_list (-1) ;;
              call (log label v step)
          end
      end).

(** The hooks.  [state] is the object in the world; the arguments of the call
    to [_log_step_metrics] are evaluated, in order, before the call. *)
Definition on_train_step_end (self : TimeWaitForBatchLogger)
    (unit : TTrainUnit) : M (World num) Datatypes.unit :=
  w <- get ;;
  ps <- none_throws (train_state (state w)) ;;
  _log_step_metrics self (iteration_timer ps)
    "Time Wait For Batch (Train)"
    (num_steps_completed (train_progress unit)) ;;;
  ret tt.

Definition on_eval_step_end (self : TimeWaitForBatchLogger)
    (unit : TEvalUnit) : M (World num) Datatypes.unit :=
  w <- get ;;
  ps <- none_throws (eval_state (state w)) ;;
  _log_step_metrics self (iteration_timer ps)
    "Time Wait For Batch (Eval)"
    (num_steps_completed (eval_progress unit)) ;;;
  ret tt.

Definition on_predict_step_end (self : TimeWaitForBatchLogger)
    (unit : TPredictUnit) : M (World num) Datatypes.unit :=
  w <- get ;;
  ps <- none_throws (predict_state (state w)) ;;
  _log_step_metrics self (iteration_timer ps)
    "Time Wait For Batch (Predict)"
    (num_steps_completed (predict_progress unit)) ;;;
  ret tt.

(** A step-end hook invocation: which hook, with the unit it receives. *)
Inductive Hook : Type :=
| TrainStepEnd (unit : TTrainUnit)
| EvalStepEnd (unit : TEvalUnit)
| PredictStepEnd (unit : TPredictUnit).

Definition invoke (self : TimeWaitForBatchLogger) (h : Hook)
  : M (World num) Datatypes.unit :=
  match h with
  | TrainStepEnd unit => on_train_step_end self unit
  | EvalStepEnd unit => on_eval_step_end self unit
  | PredictStepEnd unit => on_predict_step_end self unit
  end.

(** The vocabulary of the properties: the phase state a hook is about, the
    completed-step count of its unit, the label fixed for its phase, and the
    write a sink of a given shape receives for a (name, value, step). *)
Definition phase_state_of (h : Hook) (st : State num)
  : option (PhaseState num) :=
  match h with
  | TrainStepEnd _ => train_state st
  | EvalStepEnd _ => eval_state st
  | PredictStepEnd _ => predict_state st
  end.

Definition steps_completed (h : Hook) : Z :=
  match h with
  | TrainStepEnd unit => num_steps_completed (train_progress unit)
  | EvalStepEnd unit => num_steps_completed (eval_progress unit)
  | PredictStepEnd unit => num_steps_completed (predict_progress unit)
  end.

Definition label_of (h : Hook) : string :=
  match h with
  | TrainStepEnd _ => "Time Wait For Batch (Train)"
  | EvalStepEnd _ => "Time Wait For Batch (Eval)"
  | PredictStepEnd _ => "Time Wait For Batch (Predict)"
  end.

Definition write (sink : Sink) (name : string) (value : num) (step : Z)
  : SinkCall num :=
  match sink with
  | SummaryWriter => add_scalar name value step
  | MetricLogger => log name value step
  end.

Definition data_wait_time (ps : PhaseState num) : option (list num) :=
  recorded_durations (iteration_timer ps) !! "data_wait_time".

(** The calls a sink receives from the body of [_log_step_metrics] for a
    timer: none off cadence or without a sample, else the last sample. *)
Definition logged (self : TimeWaitForBatchLogger) (timer : Timer num)
    (label : string) (step : Z) : list (SinkCall num) :=
  if decide (step `mod` _log_every_n_steps self ≠ 0) then []
  else match recorded_durations timer !! "data_wait_time" ≫= last with
       | Some v => [write (_logger self) label v step]
       | None => []
       end.

(** The invariant [__init__] establishes on every instance. *)
Definition constructed (self : TimeWaitForBatchLogger) : Prop :=
  1 ≤ _log_every_n_steps self.

End TimeWaitForBatchLogger.
End TimeWaitForBatchLogger.

(** The world after the sink has received the calls [cs] and nothing else has
    changed. *)
Definition received {num} (w : World num) (cs : list (SinkCall num))
  : World num :=
  {| global_rank := global_rank w;
     state := state w;
     sink_calls := sink_calls w ++ cs |}.

(** ** The throughput logger *)

(** What the throughput logger needs of a number: durations add up, a count
    divides by a duration, and a duration compares with zero. *)
Class Number (num : Type) : Type := {
  add : num → num → num;
  int_div : Z → num → num;
  le_zero : num → bool
}.

#[export] Instance Q_Number : Number Q := {
  add := Qplus;
  int_div := λ n t, (inject_Z n / t)%Q;
  le_zero := λ t, Qle_bool t 0
}.

Module ThroughputLogger.
Section ThroughputLogger.

Context {num : Type} `{!Number num}.

(** Modelled from the spec: the reporter holds its sink, its Throughput
    Specification and its Logging Cadence.  [throughput_per_batch] is a dict,
    kept as its items in insertion order. *)
Record ThroughputLogger : Type := {
  _logger : Sink;
  _throughput_per_batch : list (string * Z);
  _log_every_n_steps : Z
}.

(** Modelled from the spec: the loop of the constructor over the items of the
    specification, which fails on the first value below 1, naming its key and
    the value. *)
Fixpoint check_items (items : list (string * Z))
  : M (World num) unit :=
  match items with
  | [] => ret tt
  | (item, num_items) :: rest =>
      if decide (num_items < 1) then
        raise (ValueError ("throughput_per_batch item " +:+ item
                           +:+ " must be at least 1, got "
                           +:+ str num_items))
      else check_items rest
  end.

(** Modelled from the spec: the constructor of [ThroughputLogger]
    (torchtnt/framework/callbacks/throughput_logger.py is not among the
    sources).  The three input validations of the construction contract, in
    the order the spec lists them, with the messages that
    [test_input_validation] expects. *)
Definition __init__ (logger : Sink)
    (throughput_per_batch : list (string * Z)) (log_every_n_steps : Z)
  : M (World num) ThroughputLogger :=
  match throughput_per_batch with
  | [] => raise (ValueError "throughput_per_batch cannot be empty")
  | _ :: _ =>
      check_items throughput_per_batch ;;;
      if decide (log_every_n_steps < 1) then
        raise (ValueError ("log_every_n_steps must be at least 1, got "
                           +:+ str log_every_n_steps))
      else
        ret {| _logger := logger;
               _throughput_per_batch := throughput_per_batch;
               _log_every_n_steps := log_every_n_steps |}
  end.

(** Modelled from the spec: the phase that is active, the label it has in a
    metric name, and the category of its iteration times,
    "{phase}_iteration_time". *)
Inductive ActivePhase : Type := TRAIN | EVALUATE | PREDICT.

Definition phase_label (phase : ActivePhase) : string :=
  match phase with
  | TRAIN => "Train"
  | EVALUATE => "Eval"
  | PREDICT => "Predict"
  end.

Definition iteration_time_key (phase : ActivePhase) : string :=
  match phase with
  | TRAIN => "train_iteration_time"
  | EVALUATE => "eval_iteration_time"
  | PREDICT => "predict_iteration_time"
  end.

Definition metric_name (phase : ActivePhase) (item : string) : string :=
  phase_label phase +:+ ": " +:+ item +:+ " per second (step granularity)".

(** Modelled from the spec: step 6, one metric per item of the
    specification. *)
Fixpoint log_items (phase : ActivePhase) (items : list (string * Z))
    (total_time : num) (step : Z) : M (World num) unit :=
  match items with
  | [] => ret tt
  | (item, num_items) :: rest =>
      call (log (metric_name phase item) (int_div num_items total_time)
                step) ;;;
      log_items phase rest total_time step
  end.

(** Modelled from the spec: reading a category of the Duration Recorder; one
    that was never recorded reads as no samples (a silent skip). *)
Definition samples (time_per_steps : gmap string (list num))
    (key : string) : list num :=
  default [] (time_per_steps !! key).

(** Modelled from the spec: the per-step evaluation of the throughput
    reporter, steps 1 to 6 of its component design.  The execution state
    enters through what the evaluation reads of it: the active phase and the
    recorded durations of that phase. *)
Definition _maybe_log_for_step (self : ThroughputLogger)
    (active_phase : ActivePhase)
    (time_per_steps : gmap string (list num))
    (step_logging_for : Z) (is_step_end_hook : bool)
  : M (World num) unit :=
  r <- mod_ step_logging_for (_log_every_n_steps self) ;;
  if decide (r ≠ 0) then ret tt
  else
    let data_wait_time_list := samples time_per_steps "data_wait_time" in
    let iteration_time_list :=
      samples time_per_steps (iteration_time_key active_phase) in
    if decide (length iteration_time_list = 0%nat
               ∨ (length data_wait_time_list < 2)%nat)
    then ret tt
    else
      data_wait_time <-
        getitem data_wait_time_list
                (if is_step_end_hook then -2 else -1) ;;
      iteration_time <- getitem iteration_time_list (-1) ;;
      let total_time := add data_wait_time iteration_time in
      if le_zero total_time then ret tt
      else
        log_items active_phase (_throughput_per_batch self)
                  total_time step_logging_for.

(** The [k]-th sample from the end: [from_end l 0] is [l[-1]]. *)
Definition from_end (l : list num) (k : nat) : option num :=
  reverse l !! k.

(** [data_wait_time[-2] + iteration_time[-1]] at step end,
    [data_wait_time[-1] + iteration_time[-1]] at step start. *)
Definition total_time (active_phase : ActivePhase)
    (time_per_steps : gmap string (list num)) (is_step_end_hook : bool)
  : option num :=
  wait ← from_end (samples time_per_steps "data_wait_time")
                  (if is_step_end_hook then 1 else 0)%nat;
  iteration ← from_end (samples time_per_steps
                                (iteration_time_key active_phase)) 0%nat;
  Some (add wait iteration).

(** The error for an item of the specification below 1. *)
Definition item_error (item : string) (num_items : Z) : exn :=
  ValueError ("throughput_per_batch item " +:+ item
              +:+ " must be at least 1, got " +:+ str num_items).

(** The invariant [__init__] establishes on every instance. *)
Definition constructed (self : ThroughputLogger) : Prop :=
  _throughput_per_batch self ≠ []
  ∧ Forall (λ kv, 1 ≤ kv.2) (_throughput_per_batch self)
  ∧ 1 ≤ _log_every_n_steps self.

(** The calls the sink receives for a specification at one total time. *)
Definition throughput_calls (phase : ActivePhase)
    (items : list (string * Z)) (total_time : num) (step : Z)
  : list (SinkCall num) :=
  map (λ kv, log (metric_name phase kv.1) (int_div kv.2 total_time) step)
      items.

End ThroughputLogger.
Arguments ThroughputLogger : clear implicits.
End ThroughputLogger.

(** ** Concrete runs: the data of the unit tests *)

Module Examples.

Definition train_unit (steps : Z) : TTrainUnit :=
  {| train_progress := {| num_steps_completed := steps |} |}.


(** A train phase that has waited 0.5s, then 1.5s, for its batches. *)
Definition waited : Timer Q :=
  {| recorded_durations := {[ "data_wait_time" := [1 # 2; 3 # 2]%Q ]} |}.

Definition training : State Q :=
  {| train_state := Some {| iteration_timer := waited |};
     eval_state := None;
     predict_state := None |}.

Definition process (rank : nat) : World Q :=
  {| global_rank := rank; state := training; sink_calls := [] |}.

Definition every_2_steps : TimeWaitForBatchLogger.TimeWaitForBatchLogger :=
  {| TimeWaitForBatchLogger._logger := SummaryWriter;
     TimeWaitForBatchLogger._log_every_n_steps := 2 |}.

(** [test_maybe_log_for_step]: the logger, and the recorded durations before
    and after the test appends an iteration time. *)
Definition batches_items : ThroughputLogger.ThroughputLogger :=
  {| ThroughputLogger._logger := MetricLogger;
     ThroughputLogger._throughput_per_batch :=
       [("Batches", 1); ("Items", 32)];
     ThroughputLogger._log_every_n_steps := 1 |}.

Definition durations_step_1 : gmap string (list Q) :=
  <[ "data_wait_time" := [1; 4]%Q ]>
    {[ "train_iteration_time" := [3]%Q ]}.

Definition durations_step_2 : gmap string (list Q) :=
  <[ "data_wait_time" := [1; 4]%Q ]>
    {[ "train_iteration_time" := [3; 4]%Q ]}.

(** [test_maybe_log_for_step_early_return]. *)
Definition batches (log_every_n_steps : Z)
  : ThroughputLogger.ThroughputLogger :=
  {| ThroughputLogger._logger := MetricLogger;
     ThroughputLogger._throughput_per_batch := [("Batches", 1)];
     ThroughputLogger._log_every_n_steps := log_every_n_steps |}.

Definition durations (data_wait_time train_iteration_time : list Q)
  : gmap string (list Q) :=
  <[ "data_wait_time" := data_wait_time ]>
    {[ "train_iteration_time" := train_iteration_time ]}.

(** The same train phase seen later: one more category, an eval phase begun,
    and only the last wait time the same. *)
Definition waited_more : Timer Q :=
  {| recorded_durations :=
       <[ "data_wait_time" := [7 # 1; 3 # 2]%Q ]>
         {[ "train_iteration_time" := [3]%Q ]} |}.

Definition evaluating : State Q :=
  {| train_state := Some {| iteration_timer := waited_more |};
     eval_state := Some {| iteration_timer := waited |};
     predict_state := None |}.

End Examples.

(** ** The loop around the hooks *)

Module TrainingLoop.
Import TimeWaitForBatchLogger.
Section TrainingLoop.

Context {num : Type}.

(** The step a sink call is tagged with. *)
Definition call_step (c : SinkCall num) : Z :=
  match c with
  | add_scalar _ _ global_step => global_step
  | log _ _ step => step
  end.

(** The world once the loop has put the execution state [st] in place. *)
Definition with_state (w : World num) (st : State num) : World num :=
  {| global_rank := global_rank w;
     state := st;
     sink_calls := sink_calls w |}.

(** What the logger sees of a run: the loop, which owns the execution state,
    updates it (timers record samples, phases start and end), and it calls a
    step-end hook of the logger. *)
Inductive Event : Type :=
| LoopUpdate (st : State num)
| HookCall (h : Hook).

Fixpoint run (self : TimeWaitForBatchLogger) (events : list Event)
  : M (World num) unit :=
  match events with
  | [] => ret tt
  | LoopUpdate st :: rest =>
      modify (λ w, with_state w st) ;;; run self rest
  | HookCall h :: rest =>
      invoke self h ;;; run self rest
  end.

Fixpoint hook_calls (events : list Event) : nat :=
  match events with
  | [] => 0
  | LoopUpdate _ :: rest => hook_calls rest
  | HookCall _ :: rest => S (hook_calls rest)
  end.

(** The [N] steps of a phase: for step [i] the loop puts [states i] in place
    and calls the hook of the phase with [i] steps completed. *)
Definition phase_steps (hook_at : Z → Hook) (states : nat → State num)
    (N : nat) : list Event :=
  flat_map (λ i, [LoopUpdate (states i); HookCall (hook_at (Z.of_nat i))])
           (seq 1 N).

(** [n; 2n; ...; kn]. *)
Definition multiples (n : Z) (k : nat) : list Z :=
  map (λ i, Z.of_nat i * n) (seq 1 k).

(** The last "data_wait_time" sample of the phase a hook is about. *)
Definition last_wait (h : Hook) (st : State num) : option num :=
  ps ← phase_state_of h st; data_wait_time ps ≫= last.

End TrainingLoop.
End TrainingLoop.

(** ** Facts about the builtins and the sink *)

Section Builtins.

Context {num : Type}.
Implicit Types (w : World num) (l : list num).

Lemma getitem_from_end l (k : nat) w :
  getitem l (- Z.of_nat (S k)) w =
    match reverse l !! k with
    | Some x => (Returns x, w)
    | None => (Raises IndexError, w)
    end.
Proof.
  unfold getitem. cbv zeta.
  destruct (decide (- Z.of_nat (S k) < 0)) as [_|]; [|lia].
  destruct (decide (0 ≤ - Z.of_nat (S k) + Z.of_nat (length l)))
    as [Hin|Hout].
  - rewrite reverse_lookup by lia.
    replace (Z.to_nat (- Z.of_nat (S k) + Z.of_nat (length l)))
      with (length l - S k)%nat by lia.
    by destruct (l !! _).
  - rewrite (proj2 (lookup_ge_None (reverse l) k)); [done|].
    rewrite length_reverse. lia.
Qed.

Lemma getitem_last l (v : num) w :
  last l = Some v → getitem l (-1) w = (Returns v, w).
Proof.
  intros Hlast. rewrite <- head_reverse, head_lookup in Hlast.
  change (-1) with (- Z.of_nat 1). by rewrite getitem_from_end, Hlast.
Qed.

Lemma received_nil w : received w [] = w.
Proof. destruct w. unfold received. cbn. by rewrite app_nil_r. Qed.

End Builtins.

(** ** Running the wait-time logger *)

Module TimeWaitForBatchLoggerSpec.
Import TimeWaitForBatchLogger.
Section Hooks.

Context {num : Type}.
Implicit Types (w : World num) (h : Hook) (ps : PhaseState num).
Implicit Types (self : TimeWaitForBatchLogger).

Lemma _log_step_metrics_run self timer label step w :
  _log_step_metrics self timer label step w =
    if decide (global_rank w = 0%nat) then
      if decide (_log_every_n_steps self = 0) then
        (Raises ZeroDivisionError, w)
      else (Returns (Some tt), received w (logged self timer label step))
    else (Returns None, w).
Proof.
  unfold _log_step_metrics, rank_zero_fn, logged, bind, get, mod_.
  destruct (decide (global_rank w = 0%nat)); [|done].
  destruct (decide (_log_every_n_steps self = 0)); [done|].
  unfold ret at 1.
  destruct (decide (step `mod` _log_every_n_steps self ≠ 0)).
  { by rewrite received_nil. }
  destruct (recorded_durations timer !! "data_wait_time") as [l|];
    cbn [mbind option_bind]; [|by rewrite received_nil].
  destruct l as [|x l']; [by cbn [last]; rewrite received_nil|].
  destruct (last (x :: l')) as [v|] eqn:Hlast.
  - destruct (_logger self); rewrite (getitem_last _ v) by done; done.
  - by apply last_None in Hlast.
Qed.

(** Every hook: [none_throws] on the phase state, then the gated body. *)
Lemma invoke_run self h w :
  invoke self h w =
    match phase_state_of h (state w) with
    | None => (Raises (AssertionError "Unexpected `None`"), w)
    | Some ps =>
        if decide (global_rank w = 0%nat) then
          if decide (_log_every_n_steps self = 0) then
            (Raises ZeroDivisionError, w)
          else
            (Returns tt,
             received w (logged self (iteration_timer ps) (label_of h)
                                (steps_completed h)))
        else (Returns tt, w)
    end.
Proof.
  destruct h as [u|u|u]; cbn [invoke phase_state_of label_of steps_completed];
    unfold on_train_step_end, on_eval_step_end, on_predict_step_end;
    unfold bind at 1 2; unfold get at 1;
    [destruct (train_state (state w)) as [ps|]
    |destruct (eval_state (state w)) as [ps|]
    |destruct (predict_state (state w)) as [ps|]];
    cbn [none_throws]; try done;
    unfold ret at 1; unfold bind;
    rewrite _log_step_metrics_run;
    repeat case_decide; done.
Qed.

(** Whatever [__init__] returns satisfies the invariant. *)
Lemma wait_time_init_constructed (logger : Sink) (n : Z) self w w' :
  __init__ logger n w = (Returns self, w') → constructed self ∧ w' = w.
Proof.
  unfold __init__, constructed. case_decide; [discriminate|].
  intros [= <- <-]. cbn. split; [lia|done].
Qed.

(** C6: constructing a TimeWaitForBatchLogger raises exactly when
    [log_every_n_steps < 1], and then it is the ValueError whose message
    ends in the offending value; with [log_every_n_steps >= 1] and either
    sink it returns the instance, and in both cases the world, the sink's
    calls included, is as before. *)
Theorem init_checks_log_every_n_steps (logger : Sink) (n : Z) w :
  ((∃ e, (__init__ logger n w).1 = Raises e) ↔ n < 1)
  ∧ (n < 1 →
     __init__ logger n w =
       (Raises (ValueError ("log_every_n_steps must be at least 1, got "
                            +:+ str n)), w))
  ∧ (1 ≤ n →
     __init__ logger n w =
       (Returns {| _logger := logger; _log_every_n_steps := n |}, w)).
Proof.
  unfold __init__. destruct (decide (n < 1)) as [Hlt|Hge]; cbn.
  - split; [|split]; [split; eauto| done | lia].
  - split; [|split]; [|lia|done].
    split; [intros [e He]; discriminate | lia].
Qed.

(** C1, amended: on the coordinating process, a step-end hook whose unit has
    completed a number of steps divisible by the cadence, and whose phase has
    recorded at least one "data_wait_time" sample, returns after exactly one
    sink write: the last sample, under the label of the hook's phase, at the
    completed-step count. *)
Theorem wait_time_logged_on_rank_zero self h w ps (l : list num) :
  constructed self →
  global_rank w = 0%nat →
  phase_state_of h (state w) = Some ps →
  steps_completed h `mod` _log_every_n_steps self = 0 →
  data_wait_time ps = Some l →
  l ≠ [] →
  ∃ v, last l = Some v
       ∧ invoke self h w =
           (Returns tt,
            received w [write (_logger self) (label_of h) v
                              (steps_completed h)]).
Proof.
  unfold constructed, data_wait_time.
  intros Hn Hrank Hps Hmod Hl Hne.
  destruct (last l) as [v|] eqn:Hlast;
    [|by apply last_None in Hlast].
  exists v. split; [done|].
  rewrite invoke_run, Hps.
  rewrite decide_True by done.
  rewrite decide_False by lia.
  unfold logged. rewrite decide_False by (intros Hnz; by apply Hnz).
  by rewrite Hl; cbn; rewrite Hlast.
Qed.

(** C5: off cadence, or with no "data_wait_time" category, or with an empty
    one, a step-end hook returns normally and the sink receives nothing. *)
Theorem wait_time_skipped self h w ps :
  constructed self →
  phase_state_of h (state w) = Some ps →
  steps_completed h `mod` _log_every_n_steps self ≠ 0
  ∨ data_wait_time ps = None
  ∨ data_wait_time ps = Some [] →
  invoke self h w = (Returns tt, w).
Proof.
  unfold constructed, data_wait_time. intros Hn Hps Hskip.
  rewrite invoke_run, Hps.
  case_decide; [|done].
  rewrite decide_False by lia.
  unfold logged.
  destruct Hskip as [Hmod|[Habs|Hemp]].
  - by rewrite decide_True, received_nil.
  - rewrite Habs. cbn [mbind option_bind].
    case_decide; by rewrite received_nil.
  - rewrite Hemp. cbn [mbind option_bind last].
    case_decide; by rewrite received_nil.
Qed.

(** C7: on a process whose rank is not zero no step-end hook changes
    anything, the sink included; given the phase state the hook is about, it
    returns normally, a no-op. *)
Theorem only_rank_zero_logs self h w :
  global_rank w ≠ 0%nat →
  (invoke self h w).2 = w
  ∧ (is_Some (phase_state_of h (state w)) →
     invoke self h w = (Returns tt, w)).
Proof.
  intros Hrank. rewrite invoke_run.
  destruct (phase_state_of h (state w)) as [ps|].
  - rewrite decide_False by done. done.
  - split; [done|]. by intros [? [=]].
Qed.

(** C8: for one invocation, either neither shape of sink is written, or a
    SummaryWriter receives exactly [add_scalar(name, value, step)] and any
    other sink exactly [log(name, value, step)], with one and the same
    name, value and step. *)
Theorem dispatch_on_sink_shape (n : Z) h w :
  let writer := {| _logger := SummaryWriter; _log_every_n_steps := n |} in
  let other := {| _logger := MetricLogger; _log_every_n_steps := n |} in
  (sink_calls (invoke writer h w).2 = sink_calls w
   ∧ sink_calls (invoke other h w).2 = sink_calls w)
  ∨ (∃ (name : string) (value : num) (step : Z),
       sink_calls (invoke writer h w).2
         = (sink_calls w ++ [add_scalar name value step])%list
       ∧ sink_calls (invoke other h w).2
         = (sink_calls w ++ [log name value step])%list).
Proof.
  intros writer other. rewrite !invoke_run.
  destruct (phase_state_of h (state w)) as [ps|]; [|by left].
  destruct (decide (global_rank w = 0%nat)); [|by left].
  cbn [_log_every_n_steps writer other].
  destruct (decide (n = 0)); [by left|].
  unfold logged. cbn [_log_every_n_steps _logger writer other].
  destruct (decide (steps_completed h `mod` n ≠ 0)).
  { left. by rewrite received_nil. }
  destruct (recorded_durations (iteration_timer ps) !! "data_wait_time"
            ≫= last) as [v|].
  - right. by exists (label_of h), v, (steps_completed h).
  - left. by rewrite received_nil.
Qed.

(** C9: a step-end hook leaves the execution state, every recorded duration
    with it, as it found it, and the sink receives at most one call. *)
Theorem recorded_durations_untouched self h w :
  state (invoke self h w).2 = state w
  ∧ global_rank (invoke self h w).2 = global_rank w
  ∧ (sink_calls (invoke self h w).2 = sink_calls w
     ∨ ∃ c, sink_calls (invoke self h w).2 = (sink_calls w ++ [c])%list).
Proof.
  rewrite invoke_run.
  destruct (phase_state_of h (state w)) as [ps|]; [|by auto].
  repeat case_decide; try by auto.
  cbn [snd received state global_rank sink_calls].
  split; [done|]. split; [done|].
  unfold logged. case_decide; [left; by rewrite app_nil_r|].
  destruct (_ ≫= last) as [v|]; [right; by eexists|].
  left; by rewrite app_nil_r.
Qed.

(** C10: without the phase state a hook is about, the hook raises the
    AssertionError of [none_throws] and changes nothing; with it, no
    AssertionError is raised. *)
Theorem phase_state_is_a_precondition self h w :
  match phase_state_of h (state w) with
  | None =>
      invoke self h w = (Raises (AssertionError "Unexpected `None`"), w)
  | Some _ =>
      ∀ msg, (invoke self h w).1 ≠ Raises (AssertionError msg)
  end.
Proof.
  rewrite invoke_run.
  destruct (phase_state_of h (state w)) as [ps|]; [|done].
  intros msg. repeat case_decide; discriminate.
Qed.

End Hooks.

Import Examples.

Lemma init_checks_log_every_n_steps_witness :
  __init__ MetricLogger 0 (process 0) =
    (Raises (ValueError "log_every_n_steps must be at least 1, got 0"),
     process 0)
  ∧ __init__ SummaryWriter 2 (process 0) = (Returns every_2_steps, process 0).
Proof.
  destruct (init_checks_log_every_n_steps MetricLogger 0 (process 0))
    as (_ & Hraise & _).
  destruct (init_checks_log_every_n_steps SummaryWriter 2 (process 0))
    as (_ & _ & Hret).
  split; [apply Hraise; lia | apply Hret; lia].
Defined.

Lemma wait_time_logged_on_rank_zero_witness :
  invoke every_2_steps (TrainStepEnd (train_unit 4)) (process 0) =
    (Returns tt,
     received (process 0)
              [add_scalar "Time Wait For Batch (Train)" (3 # 2)%Q 4]).
Proof.
  destruct (wait_time_logged_on_rank_zero every_2_steps
              (TrainStepEnd (train_unit 4)) (process 0)
              {| iteration_timer := waited |} [1 # 2; 3 # 2]%Q)
    as (v & Hlast & Hrun).
  - unfold constructed; cbn; lia.
  - reflexivity.
  - reflexivity.
  - reflexivity.
  - vm_compute; reflexivity.
  - discriminate.
  - cbn in Hlast. injection Hlast as <-. exact Hrun.
Defined.

(** C1 as stated fails off the coordinating process: on rank 1, on cadence
    and with two samples recorded, the hook returns and the sink has
    received nothing. *)
Lemma wait_time_not_logged_on_rank_one :
  let h := TrainStepEnd (train_unit 4) in
  let w := process 1 in
  phase_state_of h (state w) = Some {| iteration_timer := waited |}
  ∧ steps_completed h `mod` _log_every_n_steps every_2_steps = 0
  ∧ data_wait_time {| iteration_timer := waited |}
    = Some [1 # 2; 3 # 2]%Q
  ∧ invoke every_2_steps h w = (Returns tt, w)
  ∧ ¬ ∃ c, sink_calls (invoke every_2_steps h w).2
           = (sink_calls w ++ [c])%list.
Proof.
  cbv zeta. repeat split; try (vm_compute; reflexivity).
  intros [c Hc]. vm_compute in Hc. discriminate.
Qed.

Lemma wait_time_skipped_witness :
  invoke every_2_steps (TrainStepEnd (train_unit 3)) (process 0)
  = (Returns tt, process 0).
Proof.
  apply (wait_time_skipped every_2_steps (TrainStepEnd (train_unit 3))
           (process 0) {| iteration_timer := waited |}).
  - unfold constructed; cbn; lia.
  - reflexivity.
  - left. vm_compute. discriminate.
Defined.

Lemma only_rank_zero_logs_witness :
  invoke every_2_steps (TrainStepEnd (train_unit 4)) (process 1)
  = (Returns tt, process 1).
Proof.
  apply (only_rank_zero_logs every_2_steps (TrainStepEnd (train_unit 4))
           (process 1)).
  - cbn. discriminate.
  - cbn. eexists. reflexivity.
Defined.

End TimeWaitForBatchLoggerSpec.

(** ** Running the throughput logger *)

Module ThroughputLoggerSpec.
Import ThroughputLogger.
Section Reporter.

Context {num : Type} `{!Number num}.
Implicit Types (w : World num) (self : ThroughputLogger).
Implicit Types (items : list (string * Z)).
Implicit Types (time_per_steps : gmap string (list num)).

Lemma check_items_ok items w :
  Forall (λ kv, 1 ≤ kv.2) items → check_items items w = (Returns tt, w).
Proof.
  induction 1 as [|[item n] rest Hn _ IH]; [done|].
  cbn in *. by rewrite decide_False by lia.
Qed.

Lemma check_items_raises items w :
  Exists (λ kv, kv.2 < 1) items →
  ∃ item num_items,
    (item, num_items) ∈ items ∧ num_items < 1
    ∧ check_items items w = (Raises (item_error item num_items), w).
Proof.
  induction items as [|[item n] rest IH]; intros Hex.
  { by apply Exists_nil in Hex. }
  cbn [check_items]. destruct (decide (n < 1)) as [Hn|Hn].
  - exists item, n. split; [left|done].
  - apply Exists_cons in Hex as [Hhd|Htl]; [cbn in Hhd; lia|].
    destruct (IH Htl) as (item' & n' & Hin & Hlt & Hrun).
    exists item', n'. split; [by right|done].
Qed.

Lemma log_items_run phase items (total : num) (step : Z) w :
  log_items phase items total step w =
    (Returns tt, received w (throughput_calls phase items total step)).
Proof.
  revert w. induction items as [|[item n] rest IH]; intros w.
  - cbn. by rewrite received_nil.
  - cbn [log_items throughput_calls map]. unfold bind, call, modify.
    rewrite IH. unfold received. cbn. by rewrite <- app_assoc.
Qed.

(** The evaluation for a logger whose cadence is not zero: it returns, and
    the sink has received the throughput of every item, or nothing. *)
Lemma _maybe_log_for_step_run self phase time_per_steps step flag w :
  _log_every_n_steps self ≠ 0 →
  _maybe_log_for_step self phase time_per_steps step flag w =
    (Returns tt,
     received w
       (if decide (step `mod` _log_every_n_steps self ≠ 0) then []
        else if decide
                  (length (samples time_per_steps (iteration_time_key phase))
                   = 0%nat
                   ∨ (length (samples time_per_steps "data_wait_time") < 2)%nat)
        then []
        else match total_time phase time_per_steps flag with
             | Some t =>
                 if le_zero t then []
                 else throughput_calls phase (_throughput_per_batch self)
                                       t step
             | None => []
             end)).
Proof.
  intros Hn. unfold _maybe_log_for_step, mod_, bind.
  rewrite decide_False by done. unfold ret at 1.
  case_decide; [by rewrite received_nil|].
  cbv zeta. case_decide as Hlen; [by rewrite received_nil|].
  unfold total_time, from_end.
  replace (if flag then -2 else -1)
    with (- Z.of_nat (S (if flag then 1 else 0))) by by destruct flag.
  change (-1) with (- Z.of_nat 1).
  rewrite getitem_from_end.
  destruct (reverse (samples time_per_steps "data_wait_time")
            !! (if flag then 1 else 0)%nat) as [wait|] eqn:Hwait.
  2:{ apply lookup_ge_None in Hwait. rewrite length_reverse in Hwait.
      destruct flag; lia. }
  rewrite getitem_from_end.
  destruct (reverse (samples time_per_steps (iteration_time_key phase))
            !! 0%nat) as [iteration|] eqn:Hiter.
  2:{ apply lookup_ge_None in Hiter. rewrite length_reverse in Hiter. lia. }
  cbn [mbind option_bind].
  destruct (le_zero (add wait iteration)); [by rewrite received_nil|].
  apply log_items_run.
Qed.

Lemma items_checked items :
  Forall (λ kv, 1 ≤ kv.2) items ∨ Exists (λ kv, kv.2 < 1) items.
Proof.
  induction items as [|[item n] rest [IH|IH]].
  - left. constructor.
  - destruct (decide (n < 1)).
    + right. by left.
    + left. constructor; [cbn; lia|done].
  - right. by right.
Qed.

(** Whatever [__init__] returns satisfies the invariant. *)
Lemma throughput_init_constructed (logger : Sink) items (n : Z) self w w' :
  __init__ logger items n w = (Returns self, w') → constructed self ∧ w' = w.
Proof.
  unfold __init__, constructed, bind.
  destruct items as [|kv rest]; [discriminate|].
  destruct (items_checked (kv :: rest)) as [Hall|Hex].
  - rewrite check_items_ok by done. case_decide; [discriminate|].
    intros [= <- <-]. cbn. repeat split; [done|done|lia].
  - destruct (check_items_raises _ w Hex) as (? & ? & _ & _ & ->).
    discriminate.
Qed.

(** C3: constructing a throughput reporter raises exactly when the
    specification is empty, or one of its values is below 1, or the cadence is
    below 1, and what it raises is a ValueError: for an empty specification the
    message names the field, for a value below 1 it names an offending key
    with its value, for a cadence below 1 (the specification being in order)
    it names the cadence.  A non-empty specification with every value at
    least 1 and a cadence at least 1 gives the instance. *)
Theorem init_validates_inputs (logger : Sink) items (n : Z) w :
  ((∃ e, (__init__ logger items n w).1 = Raises e)
   ↔ items = [] ∨ Exists (λ kv, kv.2 < 1) items ∨ n < 1)
  ∧ (∀ e, (__init__ logger items n w).1 = Raises e → ∃ msg, e = ValueError msg)
  ∧ (items = [] →
     __init__ logger items n w =
       (Raises (ValueError "throughput_per_batch cannot be empty"), w))
  ∧ (Exists (λ kv, kv.2 < 1) items →
     ∃ item num_items,
       (item, num_items) ∈ items ∧ num_items < 1
       ∧ __init__ logger items n w = (Raises (item_error item num_items), w))
  ∧ (items ≠ [] → Forall (λ kv, 1 ≤ kv.2) items → n < 1 →
     __init__ logger items n w =
       (Raises (ValueError ("log_every_n_steps must be at least 1, got "
                            +:+ str n)), w))
  ∧ (items ≠ [] → Forall (λ kv, 1 ≤ kv.2) items → 1 ≤ n →
     __init__ logger items n w =
       (Returns {| _logger := logger;
                   _throughput_per_batch := items;
                   _log_every_n_steps := n |}, w)).
Proof.
  destruct items as [|kv rest].
  { cbn. repeat split; try done; eauto.
    - intros e [= <-]. eauto.
    - intros Hex. by apply Exists_nil in Hex. }
  set (items := kv :: rest).
  assert (Hrun_bad : Exists (λ kv, kv.2 < 1) items →
            ∃ item num_items,
              (item, num_items) ∈ items ∧ num_items < 1
              ∧ __init__ logger items n w
                = (Raises (item_error item num_items), w)).
  { intros Hex. destruct (check_items_raises items w Hex)
      as (item & k & Hin & Hlt & Hrun).
    exists item, k. repeat split; try done.
    unfold __init__, items, bind. fold items. by rewrite Hrun. }
  assert (Hrun_ok : Forall (λ kv, 1 ≤ kv.2) items →
            __init__ logger items n w =
              if decide (n < 1) then
                (Raises (ValueError
                           ("log_every_n_steps must be at least 1, got "
                            +:+ str n)), w)
              else
                (Returns {| _logger := logger;
                            _throughput_per_batch := items;
                            _log_every_n_steps := n |}, w)).
  { intros Hall. unfold __init__, items, bind. fold items.
    rewrite check_items_ok by done. by case_decide. }
  split; [|split; [|split; [|split; [|split]]]].
  - split.
    + intros [e He]. destruct (items_checked items) as [Hall|Hex]; [|by auto].
      rewrite Hrun_ok in He by done. case_decide; [by auto|discriminate].
    + intros [?|[Hex|Hn]]; [done| |].
      * destruct (Hrun_bad Hex) as (? & ? & _ & _ & ->). eauto.
      * destruct (items_checked items) as [Hall|Hex].
        -- rewrite Hrun_ok by done. rewrite decide_True by done. eauto.
        -- destruct (Hrun_bad Hex) as (? & ? & _ & _ & ->). eauto.
  - intros e He. destruct (items_checked items) as [Hall|Hex].
    + rewrite Hrun_ok in He by done.
      case_decide; [|discriminate]. injection He as <-. eauto.
    + destruct (Hrun_bad Hex) as (? & ? & _ & _ & Hrun).
      rewrite Hrun in He. injection He as <-. unfold item_error. eauto.
  - done.
  - done.
  - intros _ Hall Hn. rewrite Hrun_ok by done. by rewrite decide_True.
  - intros _ Hall Hn. rewrite Hrun_ok by done. by rewrite decide_False by lia.
Qed.

(** C2: on cadence, with an iteration time recorded, at least two wait times
    recorded and a total time above zero, the evaluation returns after the
    sink has received, for every item of the specification and in its order,
    one metric "{Phase}: {item} per second (step granularity)" whose value is
    the item's count over the total time, at the step being logged for; the
    total time is [data_wait_time[-2] + iteration_time[-1]] at step end and
    [data_wait_time[-1] + iteration_time[-1]] at step start. *)
Theorem throughput_logged self phase time_per_steps (step : Z)
    (is_step_end_hook : bool) w (t : num) :
  constructed self →
  step `mod` _log_every_n_steps self = 0 →
  samples time_per_steps (iteration_time_key phase) ≠ [] →
  (2 ≤ length (samples time_per_steps "data_wait_time"))%nat →
  total_time phase time_per_steps is_step_end_hook = Some t →
  le_zero t = false →
  _maybe_log_for_step self phase time_per_steps step is_step_end_hook w =
    (Returns tt,
     received w (throughput_calls phase (_throughput_per_batch self) t step)).
Proof.
  intros (_ & _ & Hn) Hmod Hiter Hwait Htotal Hpos.
  rewrite _maybe_log_for_step_run by lia.
  rewrite decide_False by (intros Hnz; by apply Hnz).
  rewrite decide_False.
  - by rewrite Htotal, Hpos.
  - intros [Hempty|Hshort]; [|lia].
    by apply length_zero_iff_nil in Hempty.
Qed.

(** C4: off cadence, or with no iteration time recorded, or with fewer than
    two wait times recorded, or with a total time at or below zero, the
    evaluation returns normally and the sink receives nothing. *)
Theorem throughput_skipped self phase time_per_steps (step : Z)
    (is_step_end_hook : bool) w :
  constructed self →
  step `mod` _log_every_n_steps self ≠ 0
  ∨ samples time_per_steps (iteration_time_key phase) = []
  ∨ (length (samples time_per_steps "data_wait_time") < 2)%nat
  ∨ (∃ t, total_time phase time_per_steps is_step_end_hook = Some t
          ∧ le_zero t = true) →
  _maybe_log_for_step self phase time_per_steps step is_step_end_hook w =
    (Returns tt, w).
Proof.
  intros (_ & _ & Hn) Hskip.
  rewrite _maybe_log_for_step_run by lia.
  rewrite <- (received_nil w) at 2. do 2 f_equal.
  case_decide; [done|]. case_decide; [done|].
  destruct Hskip as [Hmod|[Hiter|[Hwait|(t & Htotal & Hle)]]].
  - done.
  - rewrite Hiter in *. cbn in *. tauto.
  - tauto.
  - by rewrite Htotal, Hle.
Qed.

End Reporter.

Import Examples.

(** [test_input_validation], and the logger of [test_maybe_log_for_step]. *)
Lemma init_validates_inputs_witness :
  __init__ MetricLogger [] 1 (process 0) =
    (Raises (ValueError "throughput_per_batch cannot be empty"), process 0)
  ∧ (∃ item num_items,
       (item, num_items) ∈ [("Queries", 8); ("Batches", -1)]
       ∧ num_items < 1
       ∧ __init__ MetricLogger [("Queries", 8); ("Batches", -1)] 1 (process 0)
         = (Raises (item_error item num_items), process 0))
  ∧ __init__ MetricLogger [("Batches", 1)] 0 (process 0) =
      (Raises (ValueError "log_every_n_steps must be at least 1, got 0"),
       process 0)
  ∧ __init__ MetricLogger [("Batches", 1); ("Items", 32)] 1 (process 0) =
      (Returns batches_items, process 0).
Proof.
  split; [|split; [|split]].
  - apply (init_validates_inputs MetricLogger [] 1 (process 0)). reflexivity.
  - apply (init_validates_inputs MetricLogger
             [("Queries", 8); ("Batches", -1)] 1 (process 0)).
    right. left. cbn. lia.
  - apply (init_validates_inputs MetricLogger [("Batches", 1)] 0 (process 0)).
    + discriminate.
    + repeat constructor; cbn; lia.
    + lia.
  - apply (init_validates_inputs MetricLogger
             [("Batches", 1); ("Items", 32)] 1 (process 0)).
    + discriminate.
    + repeat constructor; cbn; lia.
    + lia.
Defined.

Lemma batches_items_constructed : constructed batches_items.
Proof.
  split; [discriminate|]. split; [|cbn; lia].
  repeat constructor; cbn; lia.
Defined.

Lemma batches_constructed (n : Z) : 1 ≤ n → constructed (batches n).
Proof.
  intros Hn. split; [discriminate|]. split; [|exact Hn].
  repeat constructor; cbn; lia.
Defined.

(** [test_maybe_log_for_step]: at step end for step 1 the total time is
    1 + 3, at step start for step 2 it is 4 + 4. *)
Lemma throughput_logged_witness :
  _maybe_log_for_step batches_items TRAIN durations_step_1 1 true (process 0)
  = (Returns tt,
     received (process 0)
       [log "Train: Batches per second (step granularity)" (1 # 4)%Q 1;
        log "Train: Items per second (step granularity)" (32 # 4)%Q 1])
  ∧ _maybe_log_for_step batches_items TRAIN durations_step_2 2 false
      (process 0)
    = (Returns tt,
       received (process 0)
         [log "Train: Batches per second (step granularity)" (1 # 8)%Q 2;
          log "Train: Items per second (step granularity)" (32 # 8)%Q 2]).
Proof.
  split.
  - rewrite (throughput_logged batches_items TRAIN durations_step_1 1 true
               (process 0) (4 # 1)%Q).
    + vm_compute. reflexivity.
    + exact batches_items_constructed.
    + reflexivity.
    + vm_compute. discriminate.
    + vm_compute. lia.
    + vm_compute. reflexivity.
    + reflexivity.
  - rewrite (throughput_logged batches_items TRAIN durations_step_2 2 false
               (process 0) (8 # 1)%Q).
    + vm_compute. reflexivity.
    + exact batches_items_constructed.
    + reflexivity.
    + vm_compute. discriminate.
    + vm_compute. lia.
    + vm_compute. reflexivity.
    + reflexivity.
Defined.

(** [test_maybe_log_for_step_early_return], case by case. *)
Lemma throughput_skipped_witness :
  _maybe_log_for_step (batches 1) TRAIN (durations [0; 4]%Q [0]%Q) 1 true
    (process 0) = (Returns tt, process 0)
  ∧ _maybe_log_for_step (batches 1) TRAIN (durations [1; 2]%Q []) 1 true
      (process 0) = (Returns tt, process 0)
  ∧ _maybe_log_for_step (batches 1) TRAIN (durations [1]%Q [1]%Q) 1 true
      (process 0) = (Returns tt, process 0)
  ∧ _maybe_log_for_step (batches 2) TRAIN (durations [1; 2]%Q [1]%Q) 1 true
      (process 0) = (Returns tt, process 0).
Proof.
  split; [|split; [|split]].
  - apply (throughput_skipped (batches 1) TRAIN (durations [0; 4]%Q [0]%Q)
             1 true (process 0)); [apply batches_constructed; lia|].
    right. right. right. exists (0 # 1)%Q. split; vm_compute; reflexivity.
  - apply (throughput_skipped (batches 1) TRAIN (durations [1; 2]%Q [])
             1 true (process 0)); [apply batches_constructed; lia|].
    right. left. vm_compute. reflexivity.
  - apply (throughput_skipped (batches 1) TRAIN (durations [1]%Q [1]%Q)
             1 true (process 0)); [apply batches_constructed; lia|].
    right. right. left. vm_compute. lia.
  - apply (throughput_skipped (batches 2) TRAIN (durations [1; 2]%Q [1]%Q)
             1 true (process 0)); [apply batches_constructed; lia|].
    left. vm_compute. discriminate.
Defined.

End ThroughputLoggerSpec.

(** ** The wait-time logger over a run *)

Module TimeWaitForBatchLoggerRuns.
Import TimeWaitForBatchLogger TrainingLoop.
Import TimeWaitForBatchLoggerSpec.
Section Runs.

Context {num : Type}.
Implicit Types (w : World num) (h : Hook) (ps : PhaseState num).
Implicit Types (self : TimeWaitForBatchLogger) (events : list (Event (num:=num))).

Lemma logged_length self (timer : Timer num) label step :
  (length (logged self timer label step) ≤ 1)%nat.
Proof.
  unfold logged. case_decide; [cbn; lia|].
  destruct (_ ≫= last); cbn; lia.
Qed.

Lemma call_step_write (sink : Sink) name (v : num) step :
  call_step (write sink name v step) = step.
Proof. by destruct sink. Qed.


(** X2: a hook reads nothing but the last "data_wait_time" sample of its own
    phase: in two worlds of the same rank, with the same sink calls so far, in
    which that phase is present with the same last sample (or with none: key
    absent or list empty), the hook ends alike and leaves the sink alike. *)
Theorem hook_reads_last_wait_only self h w w' :
  global_rank w = global_rank w' →
  sink_calls w = sink_calls w' →
  is_Some (phase_state_of h (state w)) →
  is_Some (phase_state_of h (state w')) →
  last_wait h (state w) = last_wait h (state w') →
  (invoke self h w).1 = (invoke self h w').1
  ∧ sink_calls (invoke self h w).2 = sink_calls (invoke self h w').2.
Proof.
  intros Hrank Hsink [ps Hps] [ps' Hps'] Hlast.
  unfold last_wait in Hlast. rewrite Hps, Hps' in Hlast.
  cbn [mbind option_bind] in Hlast. unfold data_wait_time in Hlast.
  rewrite !invoke_run, Hps, Hps', <- Hrank.
  repeat case_decide; try done.
  cbn [fst snd received sink_calls]. unfold logged.
  rewrite Hlast, Hsink. done.
Qed.

(** X3: a hook writes only what it should: if the sink has changed, the
    process is rank zero, the completed-step count is on cadence, the phase
    has a last "data_wait_time" sample, and the change is the one call
    carrying that sample under the hook's label at that count. *)
Theorem hook_writes_only_on_cadence self h w :
  sink_calls (invoke self h w).2 ≠ sink_calls w →
  global_rank w = 0%nat
  ∧ steps_completed h `mod` _log_every_n_steps self = 0
  ∧ ∃ v, last_wait h (state w) = Some v
         ∧ invoke self h w =
             (Returns tt,
              received w [write (_logger self) (label_of h) v
                                (steps_completed h)]).
Proof.
  rewrite invoke_run. unfold last_wait.
  destruct (phase_state_of h (state w)) as [ps|]; [|done].
  cbn [mbind option_bind]. unfold data_wait_time.
  destruct (decide (global_rank w = 0%nat)); [|done].
  destruct (decide (_log_every_n_steps self = 0)); [done|].
  unfold logged.
  destruct (decide (steps_completed h `mod` _log_every_n_steps self ≠ 0)).
  { rewrite received_nil. done. }
  destruct (recorded_durations (iteration_timer ps) !! "data_wait_time"
            ≫= last) as [v|].
  - intros _. split; [done|]. split; [lia|]. by exists v.
  - rewrite received_nil. done.
Qed.

(** X4: the logger keeps nothing between hooks: two hooks called one after
    the other, each returning normally on its own, write what each writes on
    its own, in the order of the calls. *)
Theorem hooks_compose self h1 h2 w :
  (invoke self h1 w).1 = Returns tt →
  (invoke self h2 w).1 = Returns tt →
  ∃ cs1 cs2,
    invoke self h1 w = (Returns tt, received w cs1)
    ∧ invoke self h2 w = (Returns tt, received w cs2)
    ∧ (invoke self h1 ;;; invoke self h2) w
      = (Returns tt, received w (cs1 ++ cs2)).
Proof.
  unfold bind. rewrite !invoke_run.
  destruct (phase_state_of h1 (state w)) as [ps1|]; [|done].
  destruct (phase_state_of h2 (state w)) as [ps2|] eqn:Hps2; [|done].
  destruct (decide (global_rank w = 0%nat)) as [Hzero|Hother].
  - destruct (decide (_log_every_n_steps self = 0)) as [|Hn]; [done|].
    intros _ _. do 2 eexists. split; [done|]. split; [done|].
    rewrite invoke_run. cbn [state received global_rank]. rewrite Hps2.
    rewrite decide_True by done. rewrite decide_False by done.
    unfold received. cbn. by rewrite app_assoc.
  - intros _ _. exists [], []. cbn [app]. rewrite !received_nil.
    split; [done|]. split; [done|].
    rewrite invoke_run, Hps2. by rewrite decide_False.
Qed.

Lemma run_app self events1 events2 w :
  run self (events1 ++ events2) w =
    match run self events1 w with
    | (Returns _, w1) => run self events2 w1
    | (Raises e, w1) => (Raises e, w1)
    end.
Proof.
  revert w. induction events1 as [|[st|h] rest IH]; intros w.
  - done.
  - cbn [app run]. unfold bind, modify. apply IH.
  - cbn [app run]. unfold bind.
    destruct (invoke self h w) as [[[]|e] w1]; [apply IH|done].
Qed.

(** X5: over any run of loop updates and hook calls, the calls the sink had
    received stay as they were, the sink receives at most one more call per
    hook call, and none at all on a process whose rank is not zero. *)
Theorem run_appends_at_most_one_per_hook self events w :
  ∃ cs, sink_calls (run self events w).2 = (sink_calls w ++ cs)%list
        ∧ (length cs ≤ hook_calls events)%nat
        ∧ (global_rank w ≠ 0%nat → cs = []).
Proof.
  revert w. induction events as [|[st|h] rest IH]; intros w.
  - exists []. cbn. by rewrite app_nil_r.
  - cbn [run hook_calls]. unfold bind, modify.
    destruct (IH (with_state w st)) as (cs & Hcs & Hlen & Hrank).
    exists cs. done.
  - cbn [run hook_calls]. unfold bind. rewrite invoke_run.
    destruct (phase_state_of h (state w)) as [ps|].
    2:{ exists []. cbn. rewrite app_nil_r.
      split; [done|]. split; [lia|done]. }
    destruct (decide (global_rank w = 0%nat)) as [Hzero|Hother].
    + destruct (decide (_log_every_n_steps self = 0)).
      { exists []. cbn. rewrite app_nil_r.
      split; [done|]. split; [lia|done]. }
      set (new := logged self (iteration_timer ps) (label_of h)
                         (steps_completed h)).
      destruct (IH (received w new)) as (cs & Hcs & Hlen & _).
      exists (new ++ cs)%list. rewrite Hcs. cbn [received sink_calls].
      rewrite app_assoc, length_app.
      pose proof (logged_length self (iteration_timer ps) (label_of h)
                    (steps_completed h)).
      split; [done|]. split; [unfold new; lia|done].
    + destruct (IH w) as (cs & Hcs & Hlen & Hrank).
      exists cs. split; [done|]. split; [lia|done].
Qed.

Lemma div_succ_on_cadence (n N : Z) :
  1 ≤ n → 0 ≤ N → (N + 1) `mod` n = 0 →
  (N + 1) `div` n = N `div` n + 1 ∧ (N `div` n + 1) * n = N + 1.
Proof.
  intros Hn HN Hmod.
  pose proof (Z.div_mod (N + 1) n ltac:(lia)) as Hdm. rewrite Hmod in Hdm.
  assert (N `div` n = (N + 1) `div` n - 1) as Hq.
  { symmetry. apply (Z.div_unique N n _ (n - 1)); lia. }
  lia.
Qed.

Lemma div_succ_off_cadence (n N : Z) :
  1 ≤ n → 0 ≤ N → (N + 1) `mod` n ≠ 0 → (N + 1) `div` n = N `div` n.
Proof.
  intros Hn HN Hmod.
  pose proof (Z.div_mod N n ltac:(lia)) as Hdm.
  pose proof (Z.mod_pos_bound N n ltac:(lia)) as Hr.
  destruct (decide (N `mod` n + 1 = n)) as [Hfull|Hpart].
  - exfalso. apply Hmod.
    symmetry. apply (Z.mod_unique (N + 1) n (N `div` n + 1) 0); lia.
  - symmetry. apply (Z.div_unique (N + 1) n _ (N `mod` n + 1)); lia.
Qed.

Lemma phase_steps_S hook_at (states : nat → State num) (N : nat) :
  phase_steps hook_at states (S N) =
    (phase_steps hook_at states N
     ++ [LoopUpdate (states (S N)); HookCall (hook_at (Z.of_nat (S N)))])%list.
Proof.
  unfold phase_steps. rewrite seq_S, flat_map_app. cbn. done.
Qed.

(** X6: the cadence over a phase.  On rank zero, with an instance built by
    [__init__], when the hook of a phase is called at 1, 2, ..., N completed
    steps and the phase has a "data_wait_time" sample each time, the run
    returns normally and the sink receives exactly one call per multiple of
    [log_every_n_steps] up to N, tagged n, 2n, ... in this order. *)
Theorem logs_every_nth_step self (hook_at : Z → Hook)
    (states : nat → State num) (N : nat) w :
  constructed self →
  global_rank w = 0%nat →
  (∀ i, steps_completed (hook_at i) = i) →
  (∀ i, (1 ≤ i ≤ N)%nat →
        is_Some (last_wait (hook_at (Z.of_nat i)) (states i))) →
  ∃ cs,
    (run self (phase_steps hook_at states N) w).1 = Returns tt
    ∧ sink_calls (run self (phase_steps hook_at states N) w).2
      = (sink_calls w ++ cs)%list
    ∧ map call_step cs
      = multiples (_log_every_n_steps self)
                  (Z.to_nat (Z.of_nat N `div` _log_every_n_steps self)).
Proof.
  unfold constructed. intros Hn Hzero Hsteps.
  set (n := _log_every_n_steps self) in *.
  induction N as [|N IH]; intros Hwait.
  { exists []. cbn. rewrite app_nil_r. rewrite Z.div_0_l by lia. done. }
  destruct IH as (cs & Hret & Hcs & Htags); [intros i Hi; apply Hwait; lia|].
  assert (Hrank : global_rank (run self (phase_steps hook_at states N) w).2
                  = 0%nat).
  { clear - Hzero. generalize (phase_steps hook_at states N) as events.
    intros events. revert w Hzero.
    induction events as [|[st|h] rest IHe]; intros w Hzero; [done| |].
    - cbn [run]. unfold bind, modify. by apply IHe.
    - cbn [run]. unfold bind. rewrite invoke_run.
      destruct (phase_state_of h (state w)); [|done].
      rewrite decide_True by done. case_decide; [done|]. by apply IHe. }
  rewrite phase_steps_S, run_app.
  destruct (run self (phase_steps hook_at states N) w) as [[[]|e] w1];
    [|discriminate]. cbn [fst snd] in *.
  destruct (Hwait (S N) ltac:(lia)) as [v Hv]. unfold last_wait in Hv.
  destruct (phase_state_of (hook_at (Z.of_nat (S N))) (states (S N)))
    as [ps|] eqn:Hps; [|discriminate]. cbn [mbind option_bind] in Hv.
  unfold data_wait_time in Hv.
  assert (run self [LoopUpdate (states (S N));
                    HookCall (hook_at (Z.of_nat (S N)))] w1
          = (Returns tt,
             received (with_state w1 (states (S N)))
               (logged self (iteration_timer ps)
                       (label_of (hook_at (Z.of_nat (S N))))
                       (Z.of_nat (S N))))) as Hlast.
  { cbn [run]. unfold bind, modify. rewrite invoke_run.
    cbn [with_state state global_rank]. rewrite Hps.
    rewrite decide_True by done. rewrite decide_False by lia.
    by rewrite Hsteps. }
  rewrite Hlast. cbn [fst snd received sink_calls with_state].
  unfold logged. fold n. rewrite Hv.
  replace (Z.of_nat (S N)) with (Z.of_nat N + 1) by lia.
  destruct (decide ((Z.of_nat N + 1) `mod` n ≠ 0)) as [Hoff|Hon].
  - exists cs. rewrite app_nil_r.
    rewrite div_succ_off_cadence by (done || lia). done.
  - assert ((Z.of_nat N + 1) `mod` n = 0) as Hmod by lia.
    destruct (div_succ_on_cadence n (Z.of_nat N) Hn ltac:(lia) Hmod)
      as [Hdiv Hmul].
    eexists (cs ++ [_])%list. split; [done|].
    rewrite Hcs, app_assoc. split; [done|].
    rewrite map_app, Htags. cbn [map]. rewrite call_step_write.
    rewrite Hdiv. pose proof (Z.div_pos (Z.of_nat N) n ltac:(lia) ltac:(lia)).
    rewrite Z2Nat.inj_add by lia. change (Z.to_nat 1) with 1%nat.
    rewrite Nat.add_1_r. unfold multiples.
    rewrite seq_S, map_app. cbn [map]. do 2 f_equal. lia.
Qed.

(** X7: the message of the ValueError tells the offending value: two
    constructions that raise the same error were given the same
    [log_every_n_steps]. *)
Theorem init_error_tells_the_value (logger logger' : Sink) (n n' : Z)
    w w' (e : exn) :
  (__init__ logger n w).1 = Raises e →
  (__init__ logger' n' w').1 = Raises e →
  n = n'.
Proof.
  unfold __init__, str. repeat case_decide; try discriminate.
  cbn. intros [= <-] [= Hmsg].
  apply (inj (String.append _)) in Hmsg. by apply (inj pretty) in Hmsg.
Qed.


End Runs.

Import Examples.



Lemma hook_reads_last_wait_only_witness :
  sink_calls (invoke every_2_steps (TrainStepEnd (train_unit 4))
                     (process 0)).2
  = sink_calls (invoke every_2_steps (TrainStepEnd (train_unit 4))
                       (with_state (process 0) evaluating)).2.
Proof.
  apply (hook_reads_last_wait_only every_2_steps
           (TrainStepEnd (train_unit 4)) (process 0)
           (with_state (process 0) evaluating)).
  - reflexivity.
  - reflexivity.
  - cbn. eexists. reflexivity.
  - cbn. eexists. reflexivity.
  - vm_compute. reflexivity.
Defined.

Lemma hook_writes_only_on_cadence_witness :
  steps_completed (TrainStepEnd (train_unit 4))
    `mod` _log_every_n_steps every_2_steps = 0
  ∧ ∃ v, last_wait (TrainStepEnd (train_unit 4)) (state (process 0)) = Some v.
Proof.
  destruct (hook_writes_only_on_cadence every_2_steps
              (TrainStepEnd (train_unit 4)) (process 0))
    as (_ & Hmod & v & Hv & _).
  - vm_compute. discriminate.
  - split; [exact Hmod|]. exists v. exact Hv.
Defined.

Lemma hooks_compose_witness :
  ∃ cs1 cs2,
    invoke every_2_steps (TrainStepEnd (train_unit 4)) (process 0)
    = (Returns tt, received (process 0) cs1)
    ∧ invoke every_2_steps (TrainStepEnd (train_unit 6)) (process 0)
      = (Returns tt, received (process 0) cs2)
    ∧ (invoke every_2_steps (TrainStepEnd (train_unit 4)) ;;;
       invoke every_2_steps (TrainStepEnd (train_unit 6))) (process 0)
      = (Returns tt, received (process 0) (cs1 ++ cs2)).
Proof.
  apply hooks_compose; vm_compute; reflexivity.
Defined.

(** Five train steps, logging every 2: the sink is written at 2 and at 4. *)
Lemma logs_every_nth_step_witness :
  ∃ cs,
    (run every_2_steps
         (phase_steps (λ i, TrainStepEnd (train_unit i)) (λ _, training) 5)
         (process 0)).1 = Returns tt
    ∧ sink_calls
        (run every_2_steps
             (phase_steps (λ i, TrainStepEnd (train_unit i)) (λ _, training) 5)
             (process 0)).2 = (sink_calls (process 0) ++ cs)%list
    ∧ map call_step cs = [2; 4].
Proof.
  apply (logs_every_nth_step every_2_steps
           (λ i, TrainStepEnd (train_unit i)) (λ _, training) 5 (process 0)).
  - unfold constructed; cbn; lia.
  - reflexivity.
  - reflexivity.
  - intros i _. vm_compute. eexists. reflexivity.
Defined.

Lemma init_error_tells_the_value_witness :
  (__init__ MetricLogger (-3) (process 0)).1
  = Raises (ValueError "log_every_n_steps must be at least 1, got -3")
  ∧ (__init__ SummaryWriter (-3) (process 1)).1
    = Raises (ValueError "log_every_n_steps must be at least 1, got -3")
  ∧ (-3 : Z) = -3.
Proof.
  assert ((__init__ MetricLogger (-3) (process 0)).1
          = Raises (ValueError "log_every_n_steps must be at least 1, got -3"))
    as Hfirst by (vm_compute; reflexivity).
  assert ((__init__ SummaryWriter (-3) (process 1)).1
          = Raises (ValueError "log_every_n_steps must be at least 1, got -3"))
    as Hsecond by (vm_compute; reflexivity).
  split; [exact Hfirst|]. split; [exact Hsecond|].
  exact (init_error_tells_the_value MetricLogger SummaryWriter (-3) (-3)
           (process 0) (process 1) _ Hfirst Hsecond).
Defined.

End TimeWaitForBatchLoggerRuns.
